(** * Clamped arithmetic (lib/include/clamped.h)

    A shallow embedding of the saturating 32-bit operations of
    [clamped.h] and the proofs of their arithmetic contract.

    Fixed-width integers are integers of [Z] together with a range
    predicate.  Conversions and unsigned arithmetic are written with
    their reduction modulo a power of two spelled out.  The signed
    addition of [Clamped_SAdd32] has a value only when the exact sum is
    representable: C leaves an overflowing signed addition undefined, so
    that function returns an [option].  A C function
    [Bool f(T *out, ...)] becomes a function returning the pair
    [(value stored in *out, returned Bool)]. *)

From Stdlib Require Import ZArith Bool Lia.

Local Open Scope Z_scope.

(** ** vm_basic_types.h *)

Module VmBasicTypes.

(** Modelled from the spec: [vm_basic_types.h] is included by [clamped.h]
    but is not part of the sources; its limits are the natural bounds of
    the 32-bit types ([INT32_MAX], [INT32_MIN], [UINT32_MAX]). *)
Definition MAX_INT32 : Z := 0x7fffffff.
Definition MIN_INT32 : Z := - 0x80000000.
Definition MAX_UINT32 : Z := 0xffffffff.

(** Modelled from the spec: the 64-bit limits of the same header, needed
    for the range of the [int64] and [uint64] arguments. *)
Definition MAX_INT64 : Z := 0x7fffffffffffffff.
Definition MIN_INT64 : Z := - 0x8000000000000000.
Definition MAX_UINT64 : Z := 0xffffffffffffffff.

(** The values of each integer type. *)
Definition int32 (z : Z) : Prop := MIN_INT32 <= z <= MAX_INT32.
Definition uint32 (z : Z) : Prop := 0 <= z <= MAX_UINT32.
Definition int64 (z : Z) : Prop := MIN_INT64 <= z <= MAX_INT64.
Definition uint64 (z : Z) : Prop := 0 <= z <= MAX_UINT64.

(** Conversion to an unsigned type of [w] bits: reduction modulo [2^w]. *)
Definition to_unsigned (w z : Z) : Z := z mod 2 ^ w.

(** Conversion to a signed type of [w] bits: the two's complement reading
    of the low [w] bits. *)
Definition to_signed (w z : Z) : Z := (z + 2 ^ (w - 1)) mod 2 ^ w - 2 ^ (w - 1).

Definition to_uint32 : Z -> Z := to_unsigned 32.
Definition to_int32 : Z -> Z := to_signed 32.
Definition to_uint64 : Z -> Z := to_unsigned 64.
Definition to_int64 : Z -> Z := to_signed 64.

(** [UNLIKELY] is a branch-prediction hint: the identity on conditions. *)
Definition UNLIKELY (c : bool) : bool := c.

Definition TRUE : bool := true.
Definition FALSE : bool := false.

End VmBasicTypes.

Import VmBasicTypes.

(** ** clamped.h *)

(** The addition of two [int32], as C defines it: the exact sum when it
    is an [int32], and no value otherwise (signed overflow is undefined). *)
Definition add_int32 (a b : Z) : option Z :=
  let sum := a + b in
  if (MIN_INT32 <=? sum) && (sum <=? MAX_INT32) then Some sum else None.

(** [Clamped_SAdd32]: [result = a + b] is an [int32] addition, evaluated
    before any test; where it has no value the function has no defined
    result. *)
Definition Clamped_SAdd32 (a b : Z) : option (Z * bool) :=
  match add_int32 a b with
  | Some result =>
      Some (if UNLIKELY ((0 <? b) && (result <? a)) then (MAX_INT32, FALSE)
            else if UNLIKELY ((b <? 0) && (a <? result)) then (MIN_INT32, FALSE)
            else (result, TRUE))
  | None => None
  end.

(** [Clamped_U64To32]: in [a != clamped] the [uint32] is widened back to
    [uint64], which leaves its value unchanged. *)
Definition Clamped_U64To32 (a : Z) : Z * bool :=
  let clamped := to_uint32 a in
  if UNLIKELY (negb (a =? clamped)) then (MAX_UINT32, FALSE)
  else (clamped, TRUE).

(** [Clamped_S64To32]: in [a != clamped] the [int32] is sign-extended to
    [int64], which leaves its value unchanged. *)
Definition Clamped_S64To32 (a : Z) : Z * bool :=
  let clamped := to_int32 a in
  if UNLIKELY (negb (a =? clamped))
  then ((if a <? 0 then MIN_INT32 else MAX_INT32), FALSE)
  else (clamped, TRUE).

(** [Clamped_UMul32]: [(uint64)a * b] is a [uint64] multiplication. *)
Definition Clamped_UMul32 (a b : Z) : Z * bool :=
  Clamped_U64To32 (to_uint64 (to_uint64 a * to_uint64 b)).

(** [Clamped_SMul32]: [(int64)a * b] is an [int64] multiplication. *)
Definition Clamped_SMul32 (a b : Z) : Z * bool :=
  Clamped_S64To32 (to_int64 (to_int64 a * to_int64 b)).

(** [Clamped_UAdd32]: [c = a + b] is a [uint32] addition. *)
Definition Clamped_UAdd32 (a b : Z) : Z * bool :=
  let c := to_uint32 (a + b) in
  if UNLIKELY ((c <? a) || (c <? b)) then (MAX_UINT32, FALSE)
  else (c, TRUE).

(** ** Evaluation without wrap-around of signed arithmetic

    ISO C gives no value to a signed arithmetic operation whose exact
    result is not representable at the width it is performed at.  The
    checked evaluation follows the code of the two signed functions, with
    the check written once for any width, and has no result as soon as
    such an operation is evaluated.  For [Clamped_SAdd32] it is the
    evaluation above. *)

Module Checked.

(** A signed operation at [w] bits whose exact result is [exact]. *)
Definition signed_op (w exact : Z) : option Z :=
  if (- 2 ^ (w - 1) <=? exact) && (exact <? 2 ^ (w - 1))
  then Some exact else None.

Definition Clamped_SAdd32_checked (a b : Z) : option (Z * bool) :=
  match signed_op 32 (a + b) with
  | Some result =>
      Some (if UNLIKELY ((0 <? b) && (result <? a)) then (MAX_INT32, FALSE)
            else if UNLIKELY ((b <? 0) && (a <? result)) then (MIN_INT32, FALSE)
            else (result, TRUE))
  | None => None
  end.

Definition Clamped_SMul32_checked (a b : Z) : option (Z * bool) :=
  match signed_op 64 (to_int64 a * to_int64 b) with
  | Some product => Some (Clamped_S64To32 product)
  | None => None
  end.

End Checked.

(** ** The arithmetic contract, in the words of the specification *)

(** Clamping [x] to the interval [[lo, hi]]. *)
Definition clamp (lo hi x : Z) : Z := Z.max lo (Z.min hi x).

(** [r] is a value of [[lo, hi]] that no other value of the interval
    beats in distance to [x]. *)
Definition nearest_in (lo hi x r : Z) : Prop :=
  lo <= r <= hi /\ forall v, lo <= v <= hi -> Z.abs (r - x) <= Z.abs (v - x).

(** What a returned pair owes to the exact value [x], for an output type
    of range [[lo, hi]]: the value is representable; with [TRUE] it is
    [x]; with [FALSE] it is the boundary on the side where [x] left the
    range. *)
Definition valid_output (lo hi x : Z) (p : Z * bool) : Prop :=
  lo <= fst p <= hi /\
  (snd p = true -> fst p = x) /\
  (snd p = false -> fst p = hi /\ hi < x \/ fst p = lo /\ x < lo).

(** The saturating result for the exact value [x] in the type of range
    [[lo, hi]]: the clamped value, and whether [x] was representable. *)
Definition saturate (lo hi x : Z) : Z * bool :=
  (clamp lo hi x, (lo <=? x) && (x <=? hi)).

(** ** Proof automation *)

Ltac unfold_limits :=
  unfold int32, uint32, int64, uint64,
    MAX_INT32, MIN_INT32, MAX_UINT32, MAX_INT64, MIN_INT64, MAX_UINT64 in *.

Ltac unfold_casts :=
  unfold to_uint32, to_int32, to_uint64, to_int64, to_unsigned, to_signed in *;
  change (2 ^ (32 - 1)) with 2147483648 in *;
  change (2 ^ 32) with 4294967296 in *;
  change (2 ^ (64 - 1)) with 9223372036854775808 in *;
  change (2 ^ 64) with 18446744073709551616 in *.

(** Arithmetic modulo the fixed powers of two. *)
Ltac wrap_lia := unfold_limits; unfold_casts; Z.div_mod_to_equations; lia.

(** Case analysis on the comparisons of a branch condition. *)
Ltac branch :=
  unfold UNLIKELY, TRUE, FALSE;
  repeat match goal with
    | |- context [?x <? ?y] => destruct (Z.ltb_spec x y)
    | |- context [?x <=? ?y] => destruct (Z.leb_spec x y)
    | |- context [?x =? ?y] => destruct (Z.eqb_spec x y)
    end;
  cbn [andb orb negb].

(** ** Evaluation on small inputs *)

Example SAdd32_small : Clamped_SAdd32 3 4 = Some (7, true).
Proof. reflexivity. Qed.

Example SAdd32_neg : Clamped_SAdd32 (-2147483648) (-1) = None.
Proof. reflexivity. Qed.

Example S64To32_wraps : to_int32 0x80000000 = -2147483648.
Proof. reflexivity. Qed.

Example UMul32_small : Clamped_UMul32 65536 65535 = (4294901760, true).
Proof. reflexivity. Qed.

Example SAdd32_checked_small : Checked.Clamped_SAdd32_checked (-3) 4 = Some (1, true).
Proof. reflexivity. Qed.

(** ** Conversions *)

Lemma to_uint32_range z : uint32 (to_uint32 z).
Proof. wrap_lia. Qed.

Lemma to_int32_range z : int32 (to_int32 z).
Proof. wrap_lia. Qed.

Lemma to_uint32_id z : uint32 z -> to_uint32 z = z.
Proof. intros; wrap_lia. Qed.

Lemma to_int32_id z : int32 z -> to_int32 z = z.
Proof. intros; wrap_lia. Qed.

Lemma to_uint64_id z : uint64 z -> to_uint64 z = z.
Proof. intros; wrap_lia. Qed.

Lemma to_int64_id z : int64 z -> to_int64 z = z.
Proof. intros; wrap_lia. Qed.

Lemma to_uint32_fixed z : to_uint32 z = z -> uint32 z.
Proof. intros; wrap_lia. Qed.

Lemma to_int32_fixed z : to_int32 z = z -> int32 z.
Proof. intros; wrap_lia. Qed.

(** One wrap: a value less than one modulus above the range. *)
Lemma to_uint32_above z :
  MAX_UINT32 < z <= MAX_UINT32 + 4294967296 -> to_uint32 z = z - 4294967296.
Proof. intros; wrap_lia. Qed.

(** ** Saturation

    Each operation computes [saturate] of the exact result in the range
    of its output type. *)

Section Saturate.

Variables lo hi : Z.
Hypothesis lo_le_hi : lo <= hi.

Lemma saturate_in x : lo <= x <= hi -> saturate lo hi x = (x, true).
Proof.
  intros H. unfold saturate, clamp. f_equal; [lia |].
  apply andb_true_intro; split; apply Z.leb_le; lia.
Qed.

Lemma saturate_above x : hi < x -> saturate lo hi x = (hi, false).
Proof.
  intros H. unfold saturate, clamp. f_equal; [lia |].
  apply andb_false_intro2, Z.leb_gt; lia.
Qed.

Lemma saturate_below x : x < lo -> saturate lo hi x = (lo, false).
Proof.
  intros H. unfold saturate, clamp. f_equal; [lia |].
  apply andb_false_intro1, Z.leb_gt; lia.
Qed.

Lemma saturate_cases x :
  lo <= x <= hi /\ saturate lo hi x = (x, true) \/
  hi < x /\ saturate lo hi x = (hi, false) \/
  x < lo /\ saturate lo hi x = (lo, false).
Proof.
  destruct (Z_lt_le_dec x lo); [| destruct (Z_lt_le_dec hi x)].
  - right; right. auto using saturate_below.
  - right; left. auto using saturate_above.
  - left. split; [lia | apply saturate_in; lia].
Qed.

Lemma clamp_range x : lo <= clamp lo hi x <= hi.
Proof. unfold clamp. lia. Qed.

Lemma clamp_monotone x y : x <= y -> clamp lo hi x <= clamp lo hi y.
Proof. unfold clamp. lia. Qed.

Lemma clamp_nearest x : nearest_in lo hi x (clamp lo hi x).
Proof. unfold nearest_in, clamp. split; [lia | intros v Hv; lia]. Qed.

Lemma saturate_valid x : valid_output lo hi x (saturate lo hi x).
Proof.
  unfold valid_output.
  destruct (saturate_cases x) as [[H ->] | [[H ->] | [H ->]]]; cbn [fst snd];
    repeat split; intros; try discriminate; lia.
Qed.

Lemma saturate_fst x : fst (saturate lo hi x) = clamp lo hi x.
Proof. reflexivity. Qed.

(** The nearest value of the interval is unique. *)
Lemma nearest_in_unique x r : nearest_in lo hi x r -> r = clamp lo hi x.
Proof.
  intros [Hr Hmin].
  pose proof (Hmin (clamp lo hi x) (clamp_range x)) as H.
  unfold clamp in *. lia.
Qed.

End Saturate.

(** ** Signed addition *)

Lemma add_int32_defined a b : int32 (a + b) -> add_int32 a b = Some (a + b).
Proof.
  intros [Hlo Hhi]. unfold add_int32. cbv zeta.
  apply Z.leb_le in Hlo, Hhi. now rewrite Hlo, Hhi.
Qed.

Lemma add_int32_undefined a b : ~ int32 (a + b) -> add_int32 a b = None.
Proof.
  intros H. unfold add_int32. cbv zeta.
  destruct (Z.leb_spec MIN_INT32 (a + b)), (Z.leb_spec (a + b) MAX_INT32);
    cbn [andb]; try reflexivity.
  exfalso. apply H. split; assumption.
Qed.

(** Where the addition is defined neither test can succeed. *)
Lemma Clamped_SAdd32_defined a b :
  int32 (a + b) -> Clamped_SAdd32 a b = Some (a + b, true).
Proof.
  intros H. unfold Clamped_SAdd32. rewrite add_int32_defined by assumption.
  f_equal. branch; try reflexivity; lia.
Qed.

Lemma Clamped_SAdd32_undefined a b :
  ~ int32 (a + b) -> Clamped_SAdd32 a b = None.
Proof.
  intros H. unfold Clamped_SAdd32. now rewrite add_int32_undefined.
Qed.

(** C1: the claim asks for [(MAX_INT32, FALSE)] above the range and
    [(MIN_INT32, FALSE)] below it.  At [(MAX_INT32, 1)] and at
    [(MIN_INT32, -1)] the [int32] addition that [Clamped_SAdd32] evaluates
    first overflows, and the function has no defined result. *)
Theorem Clamped_SAdd32_overflow_undefined :
  (int32 MAX_INT32 /\ int32 1 /\ Clamped_SAdd32 MAX_INT32 1 = None) /\
  (int32 MIN_INT32 /\ int32 (-1) /\ Clamped_SAdd32 MIN_INT32 (-1) = None).
Proof. repeat split; unfold_limits; lia. Qed.

(** ** Narrowing conversions *)

Lemma Clamped_U64To32_in a : uint32 a -> Clamped_U64To32 a = (a, true).
Proof.
  intros H. unfold Clamped_U64To32. rewrite (to_uint32_id _ H).
  branch; [reflexivity | contradiction].
Qed.

Lemma Clamped_U64To32_out a : ~ uint32 a -> Clamped_U64To32 a = (MAX_UINT32, false).
Proof.
  intros H. unfold Clamped_U64To32. branch; [| reflexivity].
  exfalso. apply H, to_uint32_fixed. congruence.
Qed.

Lemma Clamped_S64To32_in a : int32 a -> Clamped_S64To32 a = (a, true).
Proof.
  intros H. unfold Clamped_S64To32. rewrite (to_int32_id _ H).
  branch; first [reflexivity | contradiction].
Qed.

Lemma Clamped_S64To32_out a :
  ~ int32 a ->
  Clamped_S64To32 a = ((if a <? 0 then MIN_INT32 else MAX_INT32), false).
Proof.
  intros H. unfold Clamped_S64To32.
  destruct (Z.eqb_spec a (to_int32 a)) as [E | E]; [| reflexivity].
  exfalso. apply H, to_int32_fixed. congruence.
Qed.

Lemma Clamped_U64To32_saturate a :
  uint64 a -> Clamped_U64To32 a = saturate 0 MAX_UINT32 a.
Proof.
  intros Ha.
  destruct (saturate_cases 0 MAX_UINT32 ltac:(unfold_limits; lia) a)
    as [[H ->] | [[H ->] | [H ->]]].
  - now apply Clamped_U64To32_in.
  - apply Clamped_U64To32_out. unfold_limits; lia.
  - unfold_limits; lia.
Qed.

Lemma Clamped_S64To32_saturate a :
  Clamped_S64To32 a = saturate MIN_INT32 MAX_INT32 a.
Proof.
  destruct (saturate_cases MIN_INT32 MAX_INT32 ltac:(unfold_limits; lia) a)
    as [[H ->] | [[H ->] | [H ->]]].
  - now apply Clamped_S64To32_in.
  - rewrite Clamped_S64To32_out by (unfold_limits; lia).
    branch; [unfold_limits; lia | reflexivity].
  - rewrite Clamped_S64To32_out by (unfold_limits; lia).
    branch; [reflexivity | unfold_limits; lia].
Qed.

(** C2: a [uint64] that is a [uint32] is narrowed by [Clamped_U64To32] to
    a [uint32] that widens back to it, with [TRUE]; one above [MAX_UINT32]
    gives [MAX_UINT32] and [FALSE].  An [int64] that is an [int32] is
    narrowed by [Clamped_S64To32] to an [int32] that sign-extends back to
    it, with [TRUE]; one above the range gives [MAX_INT32] and [FALSE],
    one below gives [MIN_INT32] and [FALSE]. *)
Theorem Clamped_narrow_spec (u s : Z) (Hu : uint64 u) (Hs : int64 s) :
  (u <= MAX_UINT32 ->
   exists r, Clamped_U64To32 u = (r, true) /\ uint32 r /\ to_uint64 r = u) /\
  (MAX_UINT32 < u -> Clamped_U64To32 u = (MAX_UINT32, false)) /\
  (int32 s ->
   exists r, Clamped_S64To32 s = (r, true) /\ int32 r /\ to_int64 r = s) /\
  (MAX_INT32 < s -> Clamped_S64To32 s = (MAX_INT32, false)) /\
  (s < MIN_INT32 -> Clamped_S64To32 s = (MIN_INT32, false)).
Proof.
  repeat split; intros H.
  - exists u. assert (uint32 u) by (unfold_limits; lia).
    rewrite Clamped_U64To32_in by assumption.
    repeat split; try (unfold_limits; lia). now apply to_uint64_id.
  - apply Clamped_U64To32_out. unfold_limits; lia.
  - exists s. rewrite Clamped_S64To32_in by assumption.
    repeat split; try (unfold_limits; lia). now apply to_int64_id.
  - rewrite Clamped_S64To32_out by (unfold_limits; lia).
    branch; [unfold_limits; lia | reflexivity].
  - rewrite Clamped_S64To32_out by (unfold_limits; lia).
    branch; [reflexivity | unfold_limits; lia].
Qed.

Lemma Clamped_narrow_spec_witness :
  (exists r, Clamped_U64To32 7 = (r, true) /\ uint32 r /\ to_uint64 r = 7) /\
  Clamped_U64To32 0x100000000 = (MAX_UINT32, false) /\
  (exists r, Clamped_S64To32 (-7) = (r, true) /\ int32 r /\ to_int64 r = -7) /\
  Clamped_S64To32 0x80000000 = (MAX_INT32, false) /\
  Clamped_S64To32 (- 0x80000001) = (MIN_INT32, false).
Proof.
  split; [| split; [| split; [| split]]].
  - apply (Clamped_narrow_spec 7 0); unfold_limits; lia.
  - apply (Clamped_narrow_spec 0x100000000 0); unfold_limits; lia.
  - apply (Clamped_narrow_spec 0 (-7)); unfold_limits; lia.
  - apply (Clamped_narrow_spec 0 0x80000000); unfold_limits; lia.
  - apply (Clamped_narrow_spec 0 (- 0x80000001)); unfold_limits; lia.
Defined.

(** ** Unsigned addition *)

(** The [uint32] sum of two [uint32] wraps at most once. *)
Lemma uadd32_wrap a b :
  uint32 a -> uint32 b ->
  to_uint32 (a + b) = a + b /\ a + b <= MAX_UINT32 \/
  to_uint32 (a + b) = a + b - 4294967296 /\ MAX_UINT32 < a + b.
Proof. intros; wrap_lia. Qed.

Lemma Clamped_UAdd32_saturate a b :
  uint32 a -> uint32 b -> Clamped_UAdd32 a b = saturate 0 MAX_UINT32 (a + b).
Proof.
  intros Ha Hb. unfold Clamped_UAdd32.
  destruct (uadd32_wrap a b Ha Hb) as [[-> H] | [-> H]].
  - rewrite saturate_in by (unfold_limits; lia).
    branch; try reflexivity; unfold_limits; lia.
  - rewrite saturate_above by (unfold_limits; lia).
    branch; try reflexivity; unfold_limits; lia.
Qed.

(** C3: for [uint32] inputs and [c = (a + b) mod 2^32], [Clamped_UAdd32]
    returns [MAX_UINT32] and [FALSE] exactly when [c < a] or [c < b];
    otherwise it returns [c] and [TRUE], and [c] is the exact sum. *)
Theorem Clamped_UAdd32_spec (a b : Z) (Ha : uint32 a) (Hb : uint32 b) :
  let c := (a + b) mod 2 ^ 32 in
  (snd (Clamped_UAdd32 a b) = false <-> c < a \/ c < b) /\
  (c < a \/ c < b -> Clamped_UAdd32 a b = (MAX_UINT32, false)) /\
  (~ (c < a \/ c < b) -> Clamped_UAdd32 a b = (c, true) /\ c = a + b).
Proof.
  intros c. unfold Clamped_UAdd32.
  change (to_uint32 (a + b)) with c.
  pose proof (uadd32_wrap a b Ha Hb) as Hc.
  change (to_uint32 (a + b)) with c in Hc.
  branch; repeat split; intros; try reflexivity; try discriminate;
    try (unfold_limits; lia).
Qed.

Lemma Clamped_UAdd32_spec_witness :
  Clamped_UAdd32 0xffffffff 2 = (MAX_UINT32, false) /\
  Clamped_UAdd32 5 6 = (11, true).
Proof.
  split.
  - apply (Clamped_UAdd32_spec 0xffffffff 2); [unfold_limits; lia ..|].
    vm_compute. left. reflexivity.
  - refine (proj1 (proj2 (proj2 (Clamped_UAdd32_spec 5 6 _ _)) _));
      [unfold_limits; lia ..|].
    vm_compute. intros [H | H]; discriminate H.
Defined.

(** ** Multiplication *)

Lemma uint32_mul a b : uint32 a -> uint32 b -> uint64 (a * b).
Proof. unfold_limits. intros. nia. Qed.

Lemma int32_mul a b : int32 a -> int32 b -> int64 (a * b).
Proof. unfold_limits. intros. nia. Qed.

Lemma uint32_uint64 a : uint32 a -> uint64 a.
Proof. unfold_limits. lia. Qed.

Lemma int32_int64 a : int32 a -> int64 a.
Proof. unfold_limits. lia. Qed.

Lemma Clamped_UMul32_exact a b :
  uint32 a -> uint32 b -> Clamped_UMul32 a b = Clamped_U64To32 (a * b).
Proof.
  intros Ha Hb. unfold Clamped_UMul32.
  rewrite (to_uint64_id a), (to_uint64_id b) by now apply uint32_uint64.
  rewrite to_uint64_id by now apply uint32_mul.
  reflexivity.
Qed.

Lemma Clamped_SMul32_exact a b :
  int32 a -> int32 b -> Clamped_SMul32 a b = Clamped_S64To32 (a * b).
Proof.
  intros Ha Hb. unfold Clamped_SMul32.
  rewrite (to_int64_id a), (to_int64_id b) by now apply int32_int64.
  rewrite to_int64_id by now apply int32_mul.
  reflexivity.
Qed.

Lemma Clamped_UMul32_saturate a b :
  uint32 a -> uint32 b -> Clamped_UMul32 a b = saturate 0 MAX_UINT32 (a * b).
Proof.
  intros Ha Hb. rewrite Clamped_UMul32_exact by assumption.
  apply Clamped_U64To32_saturate. now apply uint32_mul.
Qed.

Lemma Clamped_SMul32_saturate a b :
  int32 a -> int32 b ->
  Clamped_SMul32 a b = saturate MIN_INT32 MAX_INT32 (a * b).
Proof.
  intros Ha Hb. rewrite Clamped_SMul32_exact by assumption.
  apply Clamped_S64To32_saturate.
Qed.

(** C4: for [uint32] inputs the exact product is a [uint64] and
    [Clamped_UMul32] returns what [Clamped_U64To32] returns on it; for
    [int32] inputs the exact product is an [int64] and [Clamped_SMul32]
    returns what [Clamped_S64To32] returns on it. *)
Theorem Clamped_Mul32_is_narrowing (a b x y : Z)
  (Ha : uint32 a) (Hb : uint32 b) (Hx : int32 x) (Hy : int32 y) :
  (uint64 (a * b) /\ Clamped_UMul32 a b = Clamped_U64To32 (a * b)) /\
  (int64 (x * y) /\ Clamped_SMul32 x y = Clamped_S64To32 (x * y)).
Proof.
  repeat split;
    auto using Clamped_UMul32_exact, Clamped_SMul32_exact;
    try (apply (uint32_mul a b); assumption);
    try (apply (int32_mul x y); assumption).
Qed.

Lemma Clamped_Mul32_is_narrowing_witness :
  (uint64 (0xffffffff * 0xffffffff) /\
   Clamped_UMul32 0xffffffff 0xffffffff = Clamped_U64To32 (0xffffffff * 0xffffffff)) /\
  (int64 (MIN_INT32 * MIN_INT32) /\
   Clamped_SMul32 MIN_INT32 MIN_INT32 = Clamped_S64To32 (MIN_INT32 * MIN_INT32)).
Proof.
  apply (Clamped_Mul32_is_narrowing 0xffffffff 0xffffffff MIN_INT32 MIN_INT32);
    unfold_limits; lia.
Defined.


(** ** Totality and validity of the outputs *)

Lemma int32_bounds : MIN_INT32 <= MAX_INT32.
Proof. unfold_limits; lia. Qed.

Lemma uint32_bounds : 0 <= MAX_UINT32.
Proof. unfold_limits; lia. Qed.

(** C5: the claim asks every operation to be defined on every input of
    its type and to return a representable value.  [Clamped_SAdd32] is
    not defined on every pair of [int32]: at [(MAX_INT32, MAX_INT32)] and
    at [(MIN_INT32, MIN_INT32)] its [int32] addition overflows and the
    function has no defined result. *)
Theorem Clamped_SAdd32_not_total :
  int32 MAX_INT32 /\ int32 MIN_INT32 /\
  Clamped_SAdd32 MAX_INT32 MAX_INT32 = None /\
  Clamped_SAdd32 MIN_INT32 MIN_INT32 = None.
Proof. repeat split; unfold_limits; lia. Qed.

(** X15: each of the five operations that evaluate no signed 32-bit
    arithmetic returns, on every input of its type, a pair whose value is
    representable in the output type, is the exact result when the flag
    is [TRUE], and is the clamp boundary when the flag is [FALSE] (for
    the unsigned operations, [MAX_UINT32]). *)
Theorem Clamped_valid_outputs (a b x y u s : Z)
  (Ha : uint32 a) (Hb : uint32 b) (Hx : int32 x) (Hy : int32 y)
  (Hu : uint64 u) (Hs : int64 s) :
  (exists r ok, Clamped_U64To32 u = (r, ok) /\
     valid_output 0 MAX_UINT32 u (r, ok) /\ (ok = false -> r = MAX_UINT32)) /\
  (exists r ok, Clamped_S64To32 s = (r, ok) /\
     valid_output MIN_INT32 MAX_INT32 s (r, ok)) /\
  (exists r ok, Clamped_UMul32 a b = (r, ok) /\
     valid_output 0 MAX_UINT32 (a * b) (r, ok) /\ (ok = false -> r = MAX_UINT32)) /\
  (exists r ok, Clamped_SMul32 x y = (r, ok) /\
     valid_output MIN_INT32 MAX_INT32 (x * y) (r, ok)) /\
  (exists r ok, Clamped_UAdd32 a b = (r, ok) /\
     valid_output 0 MAX_UINT32 (a + b) (r, ok) /\ (ok = false -> r = MAX_UINT32)).
Proof.
  rewrite Clamped_U64To32_saturate,
    Clamped_S64To32_saturate, Clamped_UMul32_saturate,
    Clamped_SMul32_saturate, Clamped_UAdd32_saturate by assumption.
  pose proof int32_bounds as Hi. pose proof uint32_bounds as Hn.
  assert (0 <= a * b) by (unfold_limits; nia).
  repeat split; (eexists; eexists; split; [reflexivity |]);
    try (apply saturate_valid; assumption);
    (split; [apply saturate_valid; assumption |]); intros Hok.
  - destruct (saturate_valid 0 MAX_UINT32 Hn u) as (_ & _ & Hf).
    destruct (Hf Hok) as [[E _] | [_ E]]; [exact E | unfold_limits; lia].
  - destruct (saturate_valid 0 MAX_UINT32 Hn (a * b)) as (_ & _ & Hf).
    destruct (Hf Hok) as [[E _] | [_ E]]; [exact E | lia].
  - destruct (saturate_valid 0 MAX_UINT32 Hn (a + b)) as (_ & _ & Hf).
    destruct (Hf Hok) as [[E _] | [_ E]]; [exact E | unfold_limits; lia].
Qed.

Lemma Clamped_valid_outputs_witness :
  exists r ok, Clamped_U64To32 0xffffffffffffffff = (r, ok) /\
    valid_output 0 MAX_UINT32 0xffffffffffffffff (r, ok) /\
    (ok = false -> r = MAX_UINT32).
Proof.
  refine (proj1 (Clamped_valid_outputs 0xffffffff 0xffffffff MAX_INT32 MIN_INT32
                   0xffffffffffffffff MIN_INT64 _ _ _ _ _ _));
    unfold_limits; lia.
Defined.

(** ** Concrete cases *)

(** C6: five of the six concrete cases evaluate as the specification
    states them.  The first does not: [Clamped_SAdd32 MAX_INT32 1] has no
    defined result, since the [int32] addition evaluated first
    overflows. *)
Theorem Clamped_concrete_cases :
  Clamped_SAdd32 MAX_INT32 1 = None /\
  Clamped_UAdd32 MAX_UINT32 1 = (MAX_UINT32, false) /\
  Clamped_U64To32 0x100000000 = (MAX_UINT32, false) /\
  Clamped_S64To32 (- 0x80000001) = (MIN_INT32, false) /\
  Clamped_UMul32 0xFFFFFFFF 2 = (MAX_UINT32, false) /\
  Clamped_SMul32 (-1) MIN_INT32 = (MAX_INT32, false).
Proof. repeat split; vm_compute; reflexivity. Qed.

(** ** Commutativity *)

(** C7: the claim asks [Clamped_SAdd32] to return identical pairs for
    [(a, b)] and [(b, a)].  At [(MAX_INT32, 1)] and [(1, MAX_INT32)] the
    [int32] addition overflows and neither call has a defined result;
    the tests of the code look at the sign of [b] only. *)
Theorem Clamped_SAdd32_comm_undefined :
  int32 MAX_INT32 /\ int32 1 /\
  Clamped_SAdd32 MAX_INT32 1 = None /\ Clamped_SAdd32 1 MAX_INT32 = None.
Proof. repeat split; unfold_limits; lia. Qed.

(** X16: on [uint32] inputs [Clamped_UAdd32] returns the same pair for
    [(a, b)] and [(b, a)]; when the exact sum of [x] and [y] is an
    [int32], [Clamped_SAdd32] returns that sum with [TRUE] for [(x, y)]
    and for [(y, x)]. *)
Theorem Clamped_Add32_comm_defined (a b x y : Z)
  (Ha : uint32 a) (Hb : uint32 b) (Hxy : int32 (x + y)) :
  Clamped_UAdd32 a b = Clamped_UAdd32 b a /\
  Clamped_SAdd32 x y = Some (x + y, true) /\
  Clamped_SAdd32 y x = Some (x + y, true).
Proof.
  rewrite !Clamped_UAdd32_saturate by assumption.
  split; [now rewrite (Z.add_comm a b) | split].
  - now apply Clamped_SAdd32_defined.
  - rewrite (Z.add_comm x y) in *. now apply Clamped_SAdd32_defined.
Qed.

Lemma Clamped_Add32_comm_defined_witness :
  Clamped_UAdd32 0xffffffff 7 = Clamped_UAdd32 7 0xffffffff /\
  Clamped_SAdd32 MIN_INT32 7 = Some (MIN_INT32 + 7, true) /\
  Clamped_SAdd32 7 MIN_INT32 = Some (MIN_INT32 + 7, true).
Proof.
  apply (Clamped_Add32_comm_defined 0xffffffff 7 MIN_INT32 7); unfold_limits; lia.
Defined.

(** ** Nearest representable result *)

(** C9: the claim asks [Clamped_SAdd32] to return the nearest [int32] to
    the exact sum.  At [(MAX_INT32, 1)] the nearest [int32] to the exact
    sum is [MAX_INT32], and the function has no defined result: the
    [int32] addition evaluated first overflows. *)
Theorem Clamped_SAdd32_nearest_undefined :
  nearest_in MIN_INT32 MAX_INT32 (MAX_INT32 + 1) MAX_INT32 /\
  Clamped_SAdd32 MAX_INT32 1 = None.
Proof.
  split; [| reflexivity].
  unfold nearest_in. unfold_limits. split; [lia | intros v Hv; lia].
Qed.

(** X17: on inputs of its type, each of the five operations that
    evaluate no signed 32-bit arithmetic returns a value of the output
    type that no other value of the output type beats in distance to the
    exact result; it is the exact result clamped to the range of the
    output type. *)
Theorem Clamped_nearest_results (a b x y u s : Z)
  (Ha : uint32 a) (Hb : uint32 b) (Hx : int32 x) (Hy : int32 y)
  (Hu : uint64 u) (Hs : int64 s) :
  let r2 := fst (Clamped_U64To32 u) in
  let r3 := fst (Clamped_S64To32 s) in
  let r4 := fst (Clamped_UMul32 a b) in
  let r5 := fst (Clamped_SMul32 x y) in
  let r6 := fst (Clamped_UAdd32 a b) in
  (nearest_in 0 MAX_UINT32 u r2 /\ r2 = clamp 0 MAX_UINT32 u) /\
  (nearest_in MIN_INT32 MAX_INT32 s r3 /\ r3 = clamp MIN_INT32 MAX_INT32 s) /\
  (nearest_in 0 MAX_UINT32 (a * b) r4 /\ r4 = clamp 0 MAX_UINT32 (a * b)) /\
  (nearest_in MIN_INT32 MAX_INT32 (x * y) r5 /\
   r5 = clamp MIN_INT32 MAX_INT32 (x * y)) /\
  (nearest_in 0 MAX_UINT32 (a + b) r6 /\ r6 = clamp 0 MAX_UINT32 (a + b)).
Proof.
  cbv zeta.
  rewrite Clamped_U64To32_saturate,
    Clamped_S64To32_saturate, Clamped_UMul32_saturate,
    Clamped_SMul32_saturate, Clamped_UAdd32_saturate by assumption.
  rewrite !saturate_fst.
  repeat match goal with |- _ /\ _ => split end;
    try reflexivity; apply clamp_nearest;
    first [exact int32_bounds | exact uint32_bounds].
Qed.

Lemma Clamped_nearest_results_witness :
  nearest_in 0 MAX_UINT32 0x100000000 (fst (Clamped_U64To32 0x100000000)) /\
  fst (Clamped_U64To32 0x100000000) = clamp 0 MAX_UINT32 0x100000000.
Proof.
  refine (proj1 (Clamped_nearest_results 0xffffffff 3 MIN_INT32 (-5)
                   0x100000000 (- 0x80000001) _ _ _ _ _ _));
    unfold_limits; lia.
Defined.

(** ** Monotonicity *)

(** C10: on [uint32] inputs with [b1 <= b2], the values returned by
    [Clamped_UAdd32] and by [Clamped_UMul32] do not decrease when [b1] is
    replaced by [b2], in the second argument and in the first. *)
Theorem Clamped_unsigned_monotone (a b1 b2 : Z)
  (Ha : uint32 a) (Hb1 : uint32 b1) (Hb2 : uint32 b2) (Hle : b1 <= b2) :
  fst (Clamped_UAdd32 a b1) <= fst (Clamped_UAdd32 a b2) /\
  fst (Clamped_UMul32 a b1) <= fst (Clamped_UMul32 a b2) /\
  fst (Clamped_UAdd32 b1 a) <= fst (Clamped_UAdd32 b2 a) /\
  fst (Clamped_UMul32 b1 a) <= fst (Clamped_UMul32 b2 a).
Proof.
  rewrite !Clamped_UAdd32_saturate, !Clamped_UMul32_saturate by assumption.
  rewrite !saturate_fst.
  assert (0 <= a) by (unfold_limits; lia).
  repeat split; apply clamp_monotone; nia.
Qed.

Lemma Clamped_unsigned_monotone_witness :
  fst (Clamped_UAdd32 0xfffffff0 3) <= fst (Clamped_UAdd32 0xfffffff0 0x20) /\
  fst (Clamped_UMul32 0xfffffff0 3) <= fst (Clamped_UMul32 0xfffffff0 0x20) /\
  fst (Clamped_UAdd32 3 0xfffffff0) <= fst (Clamped_UAdd32 0x20 0xfffffff0) /\
  fst (Clamped_UMul32 3 0xfffffff0) <= fst (Clamped_UMul32 0x20 0xfffffff0).
Proof.
  apply (Clamped_unsigned_monotone 0xfffffff0 3 0x20); unfold_limits; lia.
Defined.

(** ** Signed operations evaluated without wrap-around *)

Lemma signed_op_32 z :
  Checked.signed_op 32 z = if (MIN_INT32 <=? z) && (z <=? MAX_INT32) then Some z else None.
Proof.
  unfold Checked.signed_op. change (2 ^ (32 - 1)) with 2147483648.
  unfold_limits. branch; try reflexivity; lia.
Qed.

Lemma signed_op_fits w z :
  - 2 ^ (w - 1) <= z < 2 ^ (w - 1) -> Checked.signed_op w z = Some z.
Proof.
  intros H. unfold Checked.signed_op. branch; try reflexivity; lia.
Qed.

(** For [Clamped_SAdd32] the checked evaluation is the evaluation of the
    function itself. *)
Lemma Clamped_SAdd32_checked_eq a b :
  Checked.Clamped_SAdd32_checked a b = Clamped_SAdd32 a b.
Proof.
  unfold Checked.Clamped_SAdd32_checked, Clamped_SAdd32.
  rewrite signed_op_32. reflexivity.
Qed.

Lemma Clamped_SAdd32_checked_overflow a b :
  ~ int32 (a + b) -> Checked.Clamped_SAdd32_checked a b = None.
Proof.
  intros Hab. unfold Checked.Clamped_SAdd32_checked. rewrite signed_op_32.
  destruct (Z.leb_spec MIN_INT32 (a + b)), (Z.leb_spec (a + b) MAX_INT32);
    cbn [andb]; try reflexivity.
  exfalso. apply Hab. split; assumption.
Qed.

(** X18: [Clamped_SMul32] evaluates no overflowing signed operation: on
    [int32] inputs its 64-bit product is always representable, and the
    evaluation without wrap-around returns the pair the function
    returns. *)
Theorem Clamped_SMul32_checked_defined (a b : Z) (Ha : int32 a) (Hb : int32 b) :
  Checked.signed_op 64 (to_int64 a * to_int64 b) = Some (a * b) /\
  Checked.Clamped_SMul32_checked a b = Some (Clamped_SMul32 a b).
Proof.
  unfold Checked.Clamped_SMul32_checked, Clamped_SMul32.
  rewrite (to_int64_id a), (to_int64_id b) by now apply int32_int64.
  pose proof (int32_mul a b Ha Hb) as Hp.
  rewrite signed_op_fits
    by (change (2 ^ (64 - 1)) with 9223372036854775808; unfold_limits; lia).
  now rewrite (to_int64_id _ Hp).
Qed.

Lemma Clamped_SMul32_checked_defined_witness :
  Checked.signed_op 64 (to_int64 MIN_INT32 * to_int64 MIN_INT32) =
    Some (MIN_INT32 * MIN_INT32) /\
  Checked.Clamped_SMul32_checked MIN_INT32 MIN_INT32 =
    Some (Clamped_SMul32 MIN_INT32 MIN_INT32).
Proof.
  apply (Clamped_SMul32_checked_defined MIN_INT32 MIN_INT32); unfold_limits; lia.
Defined.

(** C8: the claim asks that the evaluation of [Clamped_SAdd32] on
    [int32] inputs perform no [int32] addition whose exact result is not
    an [int32].  At [(MAX_INT32, 1)] it performs one: the code evaluates
    [a + b] before any test, and the evaluation has no result. *)
Lemma Clamped_SAdd32_evaluates_overflow :
  int32 MAX_INT32 /\ int32 1 /\
  Checked.Clamped_SAdd32_checked MAX_INT32 1 = None /\
  ~ (forall a b, int32 a -> int32 b ->
       exists p, Checked.Clamped_SAdd32_checked a b = Some p).
Proof.
  assert (Hm : int32 MAX_INT32) by (unfold_limits; lia).
  assert (H1 : int32 1) by (unfold_limits; lia).
  repeat split; try (unfold_limits; lia).
  intros H. destruct (H MAX_INT32 1 Hm H1) as [p Hp]. discriminate Hp.
Qed.

(** X19: [Clamped_SAdd32] has a defined result exactly when the exact
    sum of its operands is an [int32]; the result is then that sum with
    [TRUE].  The function never returns a clamped value. *)
Theorem Clamped_SAdd32_exact_or_undefined (a b : Z) :
  (int32 (a + b) -> Clamped_SAdd32 a b = Some (a + b, true)) /\
  (~ int32 (a + b) -> Clamped_SAdd32 a b = None) /\
  (forall p, Clamped_SAdd32 a b = Some p -> p = (a + b, true) /\ int32 (a + b)).
Proof.
  split; [apply Clamped_SAdd32_defined | split; [apply Clamped_SAdd32_undefined |]].
  intros p Hp.
  assert (Hab : int32 (a + b)).
  { destruct (Z_le_dec MIN_INT32 (a + b)) as [Hlo | Hlo];
      [destruct (Z_le_dec (a + b) MAX_INT32) as [Hhi | Hhi] |].
    - split; assumption.
    - rewrite Clamped_SAdd32_undefined in Hp; [discriminate Hp |].
      intros [_ H]. contradiction.
    - rewrite Clamped_SAdd32_undefined in Hp; [discriminate Hp |].
      intros [H _]. contradiction. }
  split; [| exact Hab].
  rewrite (Clamped_SAdd32_defined a b Hab) in Hp. now injection Hp as <-.
Qed.

Lemma Clamped_SAdd32_exact_or_undefined_witness :
  Clamped_SAdd32 MAX_INT32 MIN_INT32 = Some (MAX_INT32 + MIN_INT32, true) /\
  Clamped_SAdd32 MIN_INT32 MIN_INT32 = None.
Proof.
  split.
  - apply (Clamped_SAdd32_exact_or_undefined MAX_INT32 MIN_INT32).
    unfold_limits; lia.
  - apply (Clamped_SAdd32_exact_or_undefined MIN_INT32 MIN_INT32).
    unfold_limits; lia.
Defined.

(** ** Further properties of the operations *)

Lemma uint32_0 : uint32 0.
Proof. unfold_limits; lia. Qed.

Lemma uint32_1 : uint32 1.
Proof. unfold_limits; lia. Qed.

Lemma int32_0 : int32 0.
Proof. unfold_limits; lia. Qed.

Lemma int32_1 : int32 1.
Proof. unfold_limits; lia. Qed.

Lemma Clamped_SAdd32_exact a b r :
  a + b = r -> int32 r -> Clamped_SAdd32 a b = Some (r, true).
Proof. intros <- H. now apply Clamped_SAdd32_defined. Qed.

(** A representable exact value is returned with [TRUE]. *)
Lemma saturate_exact lo hi x y :
  x = y -> lo <= y <= hi -> saturate lo hi x = (y, true).
Proof. intros -> H. apply saturate_in; lia. Qed.

Lemma Clamped_result_uint32 x : uint32 (clamp 0 MAX_UINT32 x).
Proof. apply clamp_range, uint32_bounds. Qed.

Lemma Clamped_result_int32 x : int32 (clamp MIN_INT32 MAX_INT32 x).
Proof. apply clamp_range, int32_bounds. Qed.

(** X1: zero is neutral for both additions and one for both
    multiplications, on either side and with [TRUE]; multiplying by zero
    gives zero with [TRUE]. *)
Theorem Clamped_neutral (a x : Z) (Ha : uint32 a) (Hx : int32 x) :
  (Clamped_UAdd32 a 0 = (a, true) /\ Clamped_UAdd32 0 a = (a, true)) /\
  (Clamped_SAdd32 x 0 = Some (x, true) /\ Clamped_SAdd32 0 x = Some (x, true)) /\
  (Clamped_UMul32 a 1 = (a, true) /\ Clamped_UMul32 1 a = (a, true)) /\
  (Clamped_SMul32 x 1 = (x, true) /\ Clamped_SMul32 1 x = (x, true)) /\
  (Clamped_UMul32 a 0 = (0, true) /\ Clamped_UMul32 0 a = (0, true)) /\
  (Clamped_SMul32 x 0 = (0, true) /\ Clamped_SMul32 0 x = (0, true)).
Proof.
  pose proof uint32_0. pose proof uint32_1. pose proof int32_0. pose proof int32_1.
  rewrite !Clamped_UAdd32_saturate,
    !Clamped_UMul32_saturate, !Clamped_SMul32_saturate by assumption.
  repeat match goal with |- _ /\ _ => split end;
    first [ apply saturate_exact; solve [lia | assumption]
          | apply Clamped_SAdd32_exact; solve [lia | assumption] ].
Qed.

Lemma Clamped_neutral_witness :
  Clamped_UAdd32 MAX_UINT32 0 = (MAX_UINT32, true) /\
  Clamped_UAdd32 0 MAX_UINT32 = (MAX_UINT32, true).
Proof.
  refine (proj1 (Clamped_neutral MAX_UINT32 MIN_INT32 _ _)); unfold_limits; lia.
Defined.

(** X2: [Clamped_UAdd32] returns what [Clamped_U64To32] returns on the
    exact sum, which fits 64 bits; when the exact sum of two [int32] is an
    [int32], [Clamped_SAdd32] returns what [Clamped_S64To32] returns on
    it. *)
Theorem Clamped_Add32_is_narrowing (a b x y : Z)
  (Ha : uint32 a) (Hb : uint32 b) (Hxy : int32 (x + y)) :
  (uint64 (a + b) /\ Clamped_UAdd32 a b = Clamped_U64To32 (a + b)) /\
  Clamped_SAdd32 x y = Some (Clamped_S64To32 (x + y)).
Proof.
  assert (Hab : uint64 (a + b)) by (unfold_limits; lia).
  rewrite Clamped_UAdd32_saturate, Clamped_U64To32_saturate by assumption.
  rewrite (Clamped_S64To32_in _ Hxy), (Clamped_SAdd32_defined _ _ Hxy).
  repeat split; apply Hab.
Qed.

Lemma Clamped_Add32_is_narrowing_witness :
  (uint64 (MAX_UINT32 + MAX_UINT32) /\
   Clamped_UAdd32 MAX_UINT32 MAX_UINT32 = Clamped_U64To32 (MAX_UINT32 + MAX_UINT32)) /\
  Clamped_SAdd32 MIN_INT32 MAX_INT32 = Some (Clamped_S64To32 (MIN_INT32 + MAX_INT32)).
Proof.
  apply (Clamped_Add32_is_narrowing MAX_UINT32 MAX_UINT32 MIN_INT32 MAX_INT32);
    unfold_limits; lia.
Defined.

(** X3: narrowing a value that a narrowing conversion returned changes
    nothing and reports [TRUE]. *)
Theorem Clamped_narrow_idempotent (u s : Z) (Hu : uint64 u) (Hs : int64 s) :
  Clamped_U64To32 (fst (Clamped_U64To32 u)) = (fst (Clamped_U64To32 u), true) /\
  Clamped_S64To32 (fst (Clamped_S64To32 s)) = (fst (Clamped_S64To32 s), true).
Proof.
  rewrite (Clamped_U64To32_saturate u Hu), (Clamped_S64To32_saturate s).
  rewrite !saturate_fst. split.
  - apply Clamped_U64To32_in, Clamped_result_uint32.
  - apply Clamped_S64To32_in, Clamped_result_int32.
Qed.

Lemma Clamped_narrow_idempotent_witness :
  Clamped_U64To32 (fst (Clamped_U64To32 MAX_UINT64)) =
    (fst (Clamped_U64To32 MAX_UINT64), true) /\
  Clamped_S64To32 (fst (Clamped_S64To32 MIN_INT64)) =
    (fst (Clamped_S64To32 MIN_INT64), true).
Proof.
  apply (Clamped_narrow_idempotent MAX_UINT64 MIN_INT64); unfold_limits; lia.
Defined.

(** X4: [int32] operands of opposite signs are always added exactly:
    the [int32] addition of [Clamped_SAdd32] cannot overflow on them, and
    the function returns the sum with [TRUE]. *)
Theorem Clamped_SAdd32_opposite_signs (x y : Z) (Hx : int32 x) (Hy : int32 y)
  (Hsign : x <= 0 <= y \/ y <= 0 <= x) :
  int32 (x + y) /\ Clamped_SAdd32 x y = Some (x + y, true).
Proof.
  assert (Hxy : int32 (x + y)) by (unfold_limits; lia).
  split; [exact Hxy | now apply Clamped_SAdd32_defined].
Qed.

Lemma Clamped_SAdd32_opposite_signs_witness :
  int32 (MIN_INT32 + MAX_INT32) /\
  Clamped_SAdd32 MIN_INT32 MAX_INT32 = Some (MIN_INT32 + MAX_INT32, true).
Proof.
  apply (Clamped_SAdd32_opposite_signs MIN_INT32 MAX_INT32); unfold_limits; lia.
Defined.

(** *** Chains of operations *)

Lemma clamp_add_chain x c :
  0 <= x -> 0 <= c ->
  clamp 0 MAX_UINT32 (clamp 0 MAX_UINT32 x + c) = clamp 0 MAX_UINT32 (x + c).
Proof. unfold clamp, MAX_UINT32. lia. Qed.

Lemma clamp_mul_chain x c :
  0 <= x -> 0 <= c ->
  clamp 0 MAX_UINT32 (clamp 0 MAX_UINT32 x * c) = clamp 0 MAX_UINT32 (x * c).
Proof.
  intros Hx Hc. unfold clamp, MAX_UINT32.
  destruct (Z_le_gt_dec x 0xffffffff) as [H | H].
  - replace (Z.max 0 (Z.min 0xffffffff x)) with x by lia. reflexivity.
  - replace (Z.max 0 (Z.min 0xffffffff x)) with 0xffffffff by lia.
    destruct (Z.eq_dec c 0) as [-> | Hc0].
    + now rewrite !Z.mul_0_r.
    + assert (0xffffffff <= 0xffffffff * c) by nia.
      assert (0xffffffff <= x * c) by nia.
      lia.
Qed.

(** X5: a chain of two [Clamped_UAdd32] on [uint32] inputs returns the
    exact sum of the three operands clamped to [MAX_UINT32], whichever
    way the chain is bracketed, and both steps report [TRUE] exactly when
    that sum is a [uint32]. *)
Theorem Clamped_UAdd32_chain (a b c : Z)
  (Ha : uint32 a) (Hb : uint32 b) (Hc : uint32 c) :
  let p := Clamped_UAdd32 a b in
  let q := Clamped_UAdd32 (fst p) c in
  fst q = clamp 0 MAX_UINT32 (a + b + c) /\
  fst q = fst (Clamped_UAdd32 a (fst (Clamped_UAdd32 b c))) /\
  (snd p && snd q = true <-> a + b + c <= MAX_UINT32).
Proof.
  cbv zeta.
  rewrite (Clamped_UAdd32_saturate a b Ha Hb), (Clamped_UAdd32_saturate b c Hb Hc).
  rewrite !saturate_fst.
  rewrite !Clamped_UAdd32_saturate by (assumption || apply Clamped_result_uint32).
  rewrite !saturate_fst.
  assert (0 <= a /\ 0 <= b /\ 0 <= c) as (Ha0 & Hb0 & Hc0) by (unfold_limits; lia).
  rewrite clamp_add_chain by lia.
  split; [reflexivity | split].
  - rewrite (Z.add_comm a (clamp _ _ _)), clamp_add_chain by lia.
    f_equal. lia.
  - unfold saturate, clamp, MAX_UINT32. cbn [snd].
    rewrite !andb_true_iff, !Z.leb_le. lia.
Qed.

Lemma Clamped_UAdd32_chain_witness :
  fst (Clamped_UAdd32 (fst (Clamped_UAdd32 0xfffffff0 0x10)) 5) =
    clamp 0 MAX_UINT32 (0xfffffff0 + 0x10 + 5).
Proof.
  refine (proj1 (Clamped_UAdd32_chain 0xfffffff0 0x10 5 _ _ _)); unfold_limits; lia.
Defined.

(** X6: a chain of two [Clamped_UMul32] on [uint32] inputs returns the
    exact product of the three operands clamped to [MAX_UINT32],
    whichever way the chain is bracketed. *)
Theorem Clamped_UMul32_chain (a b c : Z)
  (Ha : uint32 a) (Hb : uint32 b) (Hc : uint32 c) :
  let q := Clamped_UMul32 (fst (Clamped_UMul32 a b)) c in
  fst q = clamp 0 MAX_UINT32 (a * b * c) /\
  fst q = fst (Clamped_UMul32 a (fst (Clamped_UMul32 b c))).
Proof.
  cbv zeta.
  rewrite (Clamped_UMul32_saturate a b Ha Hb), (Clamped_UMul32_saturate b c Hb Hc).
  rewrite !saturate_fst.
  rewrite !Clamped_UMul32_saturate by (assumption || apply Clamped_result_uint32).
  rewrite !saturate_fst.
  assert (0 <= a /\ 0 <= b /\ 0 <= c) as (Ha0 & Hb0 & Hc0) by (unfold_limits; lia).
  rewrite clamp_mul_chain by nia.
  split; [reflexivity |].
  rewrite (Z.mul_comm a (clamp _ _ _)), clamp_mul_chain by nia.
  f_equal. lia.
Qed.

Lemma Clamped_UMul32_chain_witness :
  fst (Clamped_UMul32 (fst (Clamped_UMul32 0x10000 0x10000)) 0) =
    clamp 0 MAX_UINT32 (0x10000 * 0x10000 * 0).
Proof.
  refine (proj1 (Clamped_UMul32_chain 0x10000 0x10000 0 _ _ _)); unfold_limits; lia.
Defined.

(** *** Order and sign *)

(** X7: on [int32] inputs the value returned by [Clamped_SMul32] does
    not decrease when an operand grows and the other is non-negative, and
    does not increase when the other is non-positive, on either side. *)
Theorem Clamped_signed_monotone (x y1 y2 : Z)
  (Hx : int32 x) (Hy1 : int32 y1) (Hy2 : int32 y2) (Hle : y1 <= y2) :
  (0 <= x -> fst (Clamped_SMul32 x y1) <= fst (Clamped_SMul32 x y2)) /\
  (x <= 0 -> fst (Clamped_SMul32 x y2) <= fst (Clamped_SMul32 x y1)) /\
  (0 <= x -> fst (Clamped_SMul32 y1 x) <= fst (Clamped_SMul32 y2 x)) /\
  (x <= 0 -> fst (Clamped_SMul32 y2 x) <= fst (Clamped_SMul32 y1 x)).
Proof.
  rewrite !Clamped_SMul32_saturate by assumption.
  rewrite !saturate_fst.
  repeat split; intros; apply clamp_monotone; nia.
Qed.

Lemma Clamped_signed_monotone_witness :
  fst (Clamped_SMul32 3 (-7)) <= fst (Clamped_SMul32 3 MAX_INT32) /\
  fst (Clamped_SMul32 (-3) MAX_INT32) <= fst (Clamped_SMul32 (-3) (-7)).
Proof.
  split.
  - apply (Clamped_signed_monotone 3 (-7) MAX_INT32); unfold_limits; lia.
  - apply (Clamped_signed_monotone (-3) (-7) MAX_INT32); unfold_limits; lia.
Defined.

Lemma clamp_int32_sign p :
  (0 < p -> 0 < clamp MIN_INT32 MAX_INT32 p) /\
  (p < 0 -> clamp MIN_INT32 MAX_INT32 p < 0) /\
  (p = 0 -> clamp MIN_INT32 MAX_INT32 p = 0).
Proof. unfold clamp, MIN_INT32, MAX_INT32. lia. Qed.

(** X8: on [int32] inputs the value returned by [Clamped_SMul32] has the
    sign of the exact product, also when the value is clamped. *)
Theorem Clamped_signed_sign (x y : Z) (Hx : int32 x) (Hy : int32 y) :
  let m := fst (Clamped_SMul32 x y) in
  (0 < x * y -> 0 < m) /\ (x * y < 0 -> m < 0) /\ (x * y = 0 -> m = 0).
Proof.
  cbv zeta.
  rewrite Clamped_SMul32_saturate by assumption.
  rewrite !saturate_fst. apply clamp_int32_sign.
Qed.

Lemma Clamped_signed_sign_witness :
  0 < fst (Clamped_SMul32 MIN_INT32 MIN_INT32) /\
  fst (Clamped_SMul32 MIN_INT32 MAX_INT32) < 0.
Proof.
  split.
  - apply (Clamped_signed_sign MIN_INT32 MIN_INT32); unfold_limits; lia.
  - apply (Clamped_signed_sign MIN_INT32 MAX_INT32); unfold_limits; lia.
Defined.

(** X9: on [uint32] inputs the value returned by [Clamped_UAdd32] is at
    least each operand and at most the exact sum; the value returned by
    [Clamped_UMul32] is at most the exact product, and at least an operand
    whenever the other operand is not zero. *)
Theorem Clamped_unsigned_bounds (a b : Z) (Ha : uint32 a) (Hb : uint32 b) :
  let r := fst (Clamped_UAdd32 a b) in
  let m := fst (Clamped_UMul32 a b) in
  (a <= r /\ b <= r /\ r <= a + b) /\
  (m <= a * b /\ (1 <= b -> a <= m) /\ (1 <= a -> b <= m)).
Proof.
  cbv zeta.
  rewrite Clamped_UAdd32_saturate, Clamped_UMul32_saturate by assumption.
  rewrite !saturate_fst. unfold clamp. unfold_limits.
  assert (0 <= a * b) by nia.
  repeat split; intros; try lia.
  - assert (a <= a * b) by nia. lia.
  - assert (b <= a * b) by nia. lia.
Qed.

Lemma Clamped_unsigned_bounds_witness :
  0xffffffff <= fst (Clamped_UMul32 0xffffffff 0xffffffff) /\
  0xfffffff0 <= fst (Clamped_UAdd32 0xfffffff0 0x20).
Proof.
  split.
  - apply (Clamped_unsigned_bounds 0xffffffff 0xffffffff); unfold_limits; lia.
  - apply (Clamped_unsigned_bounds 0xfffffff0 0x20); unfold_limits; lia.
Defined.

(** *** Edge cases of the multiplications *)

(** X10: on an [int32] input, [Clamped_SMul32] by [-1] negates exactly,
    except at [MIN_INT32], whose negation is not an [int32]: there it
    returns [MAX_INT32] and [FALSE]. *)
Theorem Clamped_SMul32_negate (x : Z) (Hx : int32 x) :
  Clamped_SMul32 x (-1) =
    if x =? MIN_INT32 then (MAX_INT32, false) else (- x, true).
Proof.
  assert (Hm : int32 (-1)) by (unfold_limits; lia).
  rewrite Clamped_SMul32_saturate by assumption.
  destruct (Z.eqb_spec x MIN_INT32) as [-> | Hne].
  - apply saturate_above; [exact int32_bounds | unfold_limits; lia].
  - apply saturate_exact; unfold_limits; lia.
Qed.

Lemma Clamped_SMul32_negate_witness :
  Clamped_SMul32 MIN_INT32 (-1) =
    if MIN_INT32 =? MIN_INT32 then (MAX_INT32, false) else (- MIN_INT32, true).
Proof. apply (Clamped_SMul32_negate MIN_INT32). unfold_limits; lia. Defined.

(** X11: operands of half the width are always multiplied exactly:
    [Clamped_UMul32] on two values below [2^16] and [Clamped_SMul32] on
    two values of [[-2^15, 2^15 - 1]] return the exact product and
    [TRUE]. *)
Theorem Clamped_Mul32_half_width (a b x y : Z)
  (Ha : 0 <= a <= 0xffff) (Hb : 0 <= b <= 0xffff)
  (Hx : - 0x8000 <= x <= 0x7fff) (Hy : - 0x8000 <= y <= 0x7fff) :
  Clamped_UMul32 a b = (a * b, true) /\ Clamped_SMul32 x y = (x * y, true).
Proof.
  rewrite Clamped_UMul32_saturate, Clamped_SMul32_saturate
    by (unfold_limits; lia).
  split; apply saturate_exact; try reflexivity; unfold_limits; nia.
Qed.

Lemma Clamped_Mul32_half_width_witness :
  Clamped_UMul32 0xffff 0xffff = (0xffff * 0xffff, true) /\
  Clamped_SMul32 (- 0x8000) (- 0x8000) = (- 0x8000 * - 0x8000, true).
Proof. apply (Clamped_Mul32_half_width 0xffff 0xffff (- 0x8000) (- 0x8000)); lia. Defined.

(** *** The narrowing test on the bits of the argument *)

Lemma shiftr_32_zero u : Z.shiftr u 32 = 0 <-> uint32 u.
Proof.
  rewrite Z.shiftr_div_pow2 by lia. change (2 ^ 32) with 4294967296.
  unfold_limits. split; intros; Z.div_mod_to_equations; lia.
Qed.

Lemma shiftr_31_sign s : Z.shiftr s 31 = 0 \/ Z.shiftr s 31 = -1 <-> int32 s.
Proof.
  rewrite Z.shiftr_div_pow2 by lia. change (2 ^ 31) with 2147483648.
  unfold_limits. split; intros; Z.div_mod_to_equations; lia.
Qed.

Lemma to_uint32_land u : to_uint32 u = Z.land u MAX_UINT32.
Proof.
  change MAX_UINT32 with (Z.ones 32). rewrite Z.land_ones by lia. reflexivity.
Qed.

Lemma saturate_snd lo hi x : snd (saturate lo hi x) = true <-> lo <= x <= hi.
Proof.
  unfold saturate. cbn [snd]. rewrite andb_true_iff, !Z.leb_le. reflexivity.
Qed.

(** X12: [Clamped_U64To32] returns [TRUE] exactly when the upper 32 bits
    of its [uint64] argument are zero, and the value is then the lower 32
    bits; [Clamped_S64To32] returns [TRUE] exactly when bits 31 to 63 of
    its [int64] argument are all equal (the arithmetic shift by 31 is [0]
    or [-1]). *)
Theorem Clamped_narrow_bits (u s : Z) (Hu : uint64 u) (Hs : int64 s) :
  (snd (Clamped_U64To32 u) = true <-> Z.shiftr u 32 = 0) /\
  (Z.shiftr u 32 = 0 -> fst (Clamped_U64To32 u) = Z.land u MAX_UINT32) /\
  (snd (Clamped_S64To32 s) = true <-> Z.shiftr s 31 = 0 \/ Z.shiftr s 31 = -1).
Proof.
  split; [| split].
  - rewrite Clamped_U64To32_saturate, saturate_snd, shiftr_32_zero by assumption.
    reflexivity.
  - intros H. apply shiftr_32_zero in H.
    rewrite (Clamped_U64To32_in u H). cbn [fst].
    rewrite <- to_uint32_land. symmetry. now apply to_uint32_id.
  - rewrite Clamped_S64To32_saturate, saturate_snd, shiftr_31_sign.
    reflexivity.
Qed.

Lemma Clamped_narrow_bits_witness :
  fst (Clamped_U64To32 0xfffffffe) = Z.land 0xfffffffe MAX_UINT32.
Proof.
  refine (proj1 (proj2 (Clamped_narrow_bits 0xfffffffe (- 0x80000001) _ _)) _);
    [unfold_limits; lia ..|].
  reflexivity.
Defined.

(** *** Without wrap-around the clamping branches are dead *)

(** X13: whenever the evaluation of [Clamped_SAdd32] without wrap-around
    has a result, that result is the exact sum with [TRUE]: neither
    clamping branch can be taken unless the [int32] addition wraps. *)
Theorem Clamped_SAdd32_checked_never_clamps (a b : Z) (p : Z * bool)
  (Hp : Checked.Clamped_SAdd32_checked a b = Some p) :
  p = (a + b, true) /\ int32 (a + b).
Proof.
  unfold Checked.Clamped_SAdd32_checked in Hp. rewrite signed_op_32 in Hp.
  destruct (Z.leb_spec MIN_INT32 (a + b)) as [Hlo | Hlo];
    destruct (Z.leb_spec (a + b) MAX_INT32) as [Hhi | Hhi];
    cbn [andb] in Hp; try discriminate Hp.
  injection Hp as <-. split; [| split; assumption].
  branch; try reflexivity; lia.
Qed.

Lemma Clamped_SAdd32_checked_never_clamps_witness :
  (7, true) = (3 + 4, true) /\ int32 (3 + 4).
Proof.
  apply (Clamped_SAdd32_checked_never_clamps 3 4 (7, true)). reflexivity.
Defined.

(** *** Clamped sums are not wrapped sums *)

(** X14: when [Clamped_UAdd32] reports [FALSE] on [uint32] inputs, the
    value it returns differs from the wrapped sum that the plain
    [uint32] addition computes. *)
Theorem Clamped_UAdd32_not_wrapped (a b : Z) (Ha : uint32 a) (Hb : uint32 b)
  (Hok : snd (Clamped_UAdd32 a b) = false) :
  fst (Clamped_UAdd32 a b) = MAX_UINT32 /\
  fst (Clamped_UAdd32 a b) <> to_uint32 (a + b).
Proof.
  rewrite Clamped_UAdd32_saturate in * by assumption.
  destruct (saturate_cases _ _ uint32_bounds (a + b))
    as [[H E] | [[H E] | [H E]]]; rewrite E in *; cbn [fst snd] in *;
    try discriminate Hok.
  - split; [reflexivity |].
    rewrite to_uint32_above by (unfold_limits; lia). unfold_limits; lia.
  - unfold_limits; lia.
Qed.

Lemma Clamped_UAdd32_not_wrapped_witness :
  fst (Clamped_UAdd32 MAX_UINT32 MAX_UINT32) = MAX_UINT32 /\
  fst (Clamped_UAdd32 MAX_UINT32 MAX_UINT32) <> to_uint32 (MAX_UINT32 + MAX_UINT32).
Proof.
  apply (Clamped_UAdd32_not_wrapped MAX_UINT32 MAX_UINT32);
    [unfold_limits; lia ..|].
  reflexivity.
Defined.
